(** * Kernel type shims: [asm/posix_types.h] and [asm/types.h]

    The repository is two C headers made of an inclusion guard, one
    [#include <stdint.h>] and a run of [typedef]s.  The headers are embedded
    line by line (position [i] of the list is line [i+1] of the file) and
    given meaning by a small translation-unit model: the preprocessor's
    conditional stack and macro table, and the compiler's table of ordinary
    identifiers. *)

From stdpp Require Import gmap strings list fin_maps.

Open Scope string_scope.

(** ** Integer types named by the headers *)

Inductive signedness := Signed | Unsigned.

(** The type specifiers that occur on the right of a [typedef] in the two
    files: the eight exact-width names of [<stdint.h>] and the two spellings
    of the built-in [long]. *)
Inductive ctype :=
  | uint8_t | int8_t
  | uint16_t | int16_t
  | uint32_t | int32_t
  | uint64_t | int64_t
  | unsigned_long
  | long.

#[global] Instance signedness_eq_dec : EqDecision signedness.
Proof. solve_decision. Defined.

#[global] Instance ctype_eq_dec : EqDecision ctype.
Proof. solve_decision. Defined.

(** Host data models: they fix the width of [long] and of pointers.  The
    headers' comments target 64-bit macOS hosts, which are [LP64]. *)
Inductive data_model := ILP32 | LP64 | LLP64.

Definition long_bits (dm : data_model) : Z :=
  match dm with
  | ILP32 => 32
  | LP64 => 64
  | LLP64 => 32
  end.

Definition pointer_bits (dm : data_model) : Z :=
  match dm with
  | ILP32 => 32
  | LP64 => 64
  | LLP64 => 64
  end.

(** [uintN_t]/[intN_t] come from [<stdint.h>] and have exactly [N] bits on
    every host (C11 7.20.1.1); the others are built in and follow the host. *)
Definition is_stdint (t : ctype) : bool :=
  match t with
  | unsigned_long | long => false
  | _ => true
  end.

Definition signedness_of (t : ctype) : signedness :=
  match t with
  | uint8_t | uint16_t | uint32_t | uint64_t | unsigned_long => Unsigned
  | int8_t | int16_t | int32_t | int64_t | long => Signed
  end.

Definition bits (dm : data_model) (t : ctype) : Z :=
  match t with
  | uint8_t | int8_t => 8
  | uint16_t | int16_t => 16
  | uint32_t | int32_t => 32
  | uint64_t | int64_t => 64
  | unsigned_long | long => long_bits dm
  end.

(** ** Header text *)

(** One constructor per kind of source line.  [Extern] and [Proto] (object
    and function declarations) and [Define] of arbitrary names are what a
    header could contain besides typedefs; the two files use none. *)
Inductive line :=
  | Comment
  | Blank
  | Ifndef (m : string)
  | Define (m : string)
  | Endif
  | Include (h : string)
  | Typedef (t : ctype) (name : string)
  | Extern (t : ctype) (name : string)
  | Proto (t : ctype) (name : string).

(** [src/headers/asm/posix_types.h], lines 1 to 34 (the last one empty). *)
Definition posix_types_h : list line :=
  [ Comment; Comment; Comment; Comment; Comment;
    Comment; Comment; Comment; Comment;
    Blank;
    Ifndef "_ASM_POSIX_TYPES_H";
    Define "_ASM_POSIX_TYPES_H";
    Blank;
    Include "stdint.h";
    Blank;
    Comment;
    Typedef uint64_t "__kernel_dev_t";
    Typedef uint64_t "__kernel_ino_t";
    Blank;
    Comment;
    Typedef uint32_t "__kernel_mode_t";
    Typedef uint32_t "__kernel_nlink_t";
    Typedef uint32_t "__kernel_uid_t";
    Typedef uint32_t "__kernel_gid_t";
    Blank;
    Comment;
    Typedef int64_t "__kernel_off_t";
    Typedef int32_t "__kernel_pid_t";
    Blank;
    Comment;
    Typedef int32_t "__kernel_daddr_t";
    Blank;
    Endif;
    Blank ].

(** [src/headers/asm/types.h], lines 1 to 26. *)
Definition types_h : list line :=
  [ Comment; Comment; Comment; Comment; Comment; Comment; Comment;
    Blank;
    Ifndef "_ASM_TYPES_H";
    Define "_ASM_TYPES_H";
    Blank;
    Include "stdint.h";
    Blank;
    Typedef uint8_t "__u8";
    Typedef int8_t "__s8";
    Typedef uint16_t "__u16";
    Typedef int16_t "__s16";
    Typedef uint32_t "__u32";
    Typedef int32_t "__s32";
    Typedef uint64_t "__u64";
    Typedef int64_t "__s64";
    Blank;
    Typedef unsigned_long "__kernel_ulong_t";
    Typedef long "__kernel_long_t";
    Blank;
    Endif ].

(** The two files of the repository. *)
Inductive header := HeaderA | HeaderB.

#[global] Instance header_eq_dec : EqDecision header.
Proof. solve_decision. Defined.

Definition text (h : header) : list line :=
  match h with
  | HeaderA => posix_types_h
  | HeaderB => types_h
  end.

(** ** Translation units *)

(** What an ordinary identifier names.  C has one name space for typedef
    names, objects and functions. *)
Inductive entity :=
  | TypedefName (t : ctype)
  | ObjectName (t : ctype)
  | FunctionName (t : ctype).

#[global] Instance entity_eq_dec : EqDecision entity.
Proof. solve_decision. Defined.

Record tu := mkTU {
  macros : gset string;          (* object-like macros currently defined *)
  sys_headers : gset string;     (* system headers pulled in by #include <...> *)
  idents : gmap string entity    (* ordinary identifiers declared so far *)
}.

Definition empty_tu : tu := mkTU ∅ ∅ ∅.

Inductive error :=
  | Redefinition (name : string)
  | UnknownType (t : ctype)
  | EndifWithoutIf
  | UnterminatedIf.

Inductive result (A : Type) :=
  | OK (a : A)
  | Err (e : error).
Arguments OK {A} a.
Arguments Err {A} e.

Definition bind {A B} (r : result A) (k : A → result B) : result B :=
  match r with
  | OK a => k a
  | Err e => Err e
  end.

(** A type specifier can be used once its name is visible: the [<stdint.h>]
    names after that header was included, the built-in ones always. *)
Definition known (s : tu) (t : ctype) : bool :=
  if is_stdint t then bool_decide ("stdint.h" ∈ sys_headers s) else true.

(** Declaring an ordinary identifier.  The rule is the strict one (C99
    6.7p3): a name that is already declared cannot be declared again, not
    even with the same type. *)
Definition declare (name : string) (e : entity) (t : ctype) (s : tu) : result tu :=
  if known s t then
    match idents s !! name with
    | Some _ => Err (Redefinition name)
    | None => OK (mkTU (macros s) (sys_headers s) (<[name := e]> (idents s)))
    end
  else Err (UnknownType t).

(** The conditional stack holds, innermost first, whether each open
    [#ifndef] group was taken; a line is live when all of them were. *)
Definition active (stk : list bool) : bool := forallb (λ b, b) stk.

Definition cpp_line (l : line) (stk : list bool) (s : tu) : result (list bool * tu) :=
  match l with
  | Comment | Blank => OK (stk, s)
  | Ifndef m => OK (bool_decide (m ∉ macros s) :: stk, s)
  | Endif =>
      match stk with
      | [] => Err EndifWithoutIf
      | _ :: stk' => OK (stk', s)
      end
  | Define m =>
      if active stk
      then OK (stk, mkTU ({[m]} ∪ macros s) (sys_headers s) (idents s))
      else OK (stk, s)
  | Include h =>
      if active stk
      then OK (stk, mkTU (macros s) ({[h]} ∪ sys_headers s) (idents s))
      else OK (stk, s)
  | Typedef t name =>
      if active stk
      then bind (declare name (TypedefName t) t s) (λ s', OK (stk, s'))
      else OK (stk, s)
  | Extern t name =>
      if active stk
      then bind (declare name (ObjectName t) t s) (λ s', OK (stk, s'))
      else OK (stk, s)
  | Proto t name =>
      if active stk
      then bind (declare name (FunctionName t) t s) (λ s', OK (stk, s'))
      else OK (stk, s)
  end.

Fixpoint cpp (ls : list line) (stk : list bool) (s : tu) : result (list bool * tu) :=
  match ls with
  | [] => OK (stk, s)
  | l :: ls' => bind (cpp_line l stk s) (λ '(stk', s'), cpp ls' stk' s')
  end.

(** [#include "h"]: the file's lines are processed in the including unit;
    every conditional opened by the file must be closed by it. *)
Definition include_text (ls : list line) (s : tu) : result tu :=
  match cpp ls [] s with
  | OK ([], s') => OK s'
  | OK (_ :: _, _) => Err UnterminatedIf
  | Err e => Err e
  end.

Definition include (h : header) (s : tu) : result tu := include_text (text h) s.

Fixpoint include_all (hs : list header) (s : tu) : result tu :=
  match hs with
  | [] => OK s
  | h :: hs' => bind (include h s) (include_all hs')
  end.

(** A translation unit that consists of the given inclusions only. *)
Definition compile (hs : list header) : result tu := include_all hs empty_tu.

(** The typedef names a unit declares, with the type each one aliases. *)
Definition alias_of (s : tu) (name : string) : option ctype :=
  match idents s !! name with
  | Some (TypedefName t) => Some t
  | _ => None
  end.

Definition guard (h : header) : string :=
  match h with
  | HeaderA => "_ASM_POSIX_TYPES_H"
  | HeaderB => "_ASM_TYPES_H"
  end.

(** The typedef lines of a file, in source order. *)
Definition typedefs (ls : list line) : list (string * ctype) :=
  omap (λ l, match l with Typedef t n => Some (n, t) | _ => None end) ls.

(** The names the specification documents for each header: Header A's nine
    POSIX kernel types, Header B's eight fixed-width and two platform-width
    integer types. *)
Definition documented (h : header) : list string :=
  match h with
  | HeaderA =>
      [ "__kernel_dev_t"; "__kernel_ino_t";
        "__kernel_mode_t"; "__kernel_nlink_t"; "__kernel_uid_t"; "__kernel_gid_t";
        "__kernel_off_t"; "__kernel_pid_t"; "__kernel_daddr_t" ]
  | HeaderB =>
      [ "__u8"; "__s8"; "__u16"; "__s16"; "__u32"; "__s32"; "__u64"; "__s64";
        "__kernel_ulong_t"; "__kernel_long_t" ]
  end.

(** [name] is an alias for an integer type of the given signedness that has
    exactly [n] bits on host [dm]. *)
Definition resolves_to (dm : data_model) (s : tu) (name : string)
    (sg : signedness) (n : Z) : Prop :=
  ∃ t, alias_of s name = Some t ∧ signedness_of t = sg ∧ bits dm t = n.

(** The unit left by each file alone, and by both. *)
Definition unit_of (ls : list line) (g : string) : tu :=
  mkTU {[ g ]} {[ "stdint.h" ]}
       (list_to_map (prod_map id TypedefName <$> typedefs ls)).

Definition unit_A : tu := unit_of posix_types_h "_ASM_POSIX_TYPES_H".
Definition unit_B : tu := unit_of types_h "_ASM_TYPES_H".

Definition unit_AB : tu :=
  mkTU (macros unit_A ∪ macros unit_B) {[ "stdint.h" ]}
       (idents unit_A ∪ idents unit_B).

(** ** Vocabulary of the statements *)

(** [name] is a fixed-width alias: it names a [<stdint.h>] type of the given
    signedness and of exactly [n] bits. *)
Definition fixed_width_alias (dm : data_model) (s : tu) (name : string)
    (sg : signedness) (n : Z) : Prop :=
  ∃ t, alias_of s name = Some t ∧ is_stdint t = true
       ∧ signedness_of t = sg ∧ bits dm t = n.

(** The fixed-width aliases of [n] bits in [s] are [uname], unsigned, and
    [sname], signed, and no other. *)
Definition fixed_width_pair (dm : data_model) (s : tu) (n : Z)
    (uname sname : string) : Prop :=
  fixed_width_alias dm s uname Unsigned n
  ∧ fixed_width_alias dm s sname Signed n
  ∧ uname ≠ sname
  ∧ ∀ name t, alias_of s name = Some t → is_stdint t = true → bits dm t = n →
      name = uname ∨ name = sname.

(** Every name a unit defines: ordinary identifiers and macros. *)
Definition defined_names (s : tu) : gset string := dom (idents s) ∪ macros s.

(** What the specification lets a line of header [h] be: a comment, a blank
    line, the guard's three directives, the [<stdint.h>] inclusion, or a
    typedef of a documented name. *)
Definition allowed_line (h : header) (l : line) : bool :=
  match l with
  | Comment | Blank | Endif => true
  | Ifndef m | Define m => bool_decide (m = guard h)
  | Include f => bool_decide (f = "stdint.h")
  | Typedef _ name => bool_decide (name ∈ documented h)
  | Extern _ _ | Proto _ _ => false
  end.

Definition is_typedef_name (e : entity) : bool :=
  match e with
  | TypedefName _ => true
  | ObjectName _ | FunctionName _ => false
  end.

(** The unit reached from the empty one once Header A ([a]) and Header B
    ([b]) have or have not been included. *)
Definition reached (a b : bool) : tu :=
  match a, b with
  | false, false => empty_tu
  | true, false => unit_A
  | false, true => unit_B
  | true, true => unit_AB
  end.

Definition seen (h : header) (hs : list header) : bool := bool_decide (h ∈ hs).

(** ** Including into an arbitrary unit *)

(** The names a file declares, in source order. *)
Definition names (h : header) : list string := (typedefs (text h)).*1.

(** The typedef names of a file as an identifier table. *)
Definition aliases (h : header) : gmap string entity :=
  list_to_map (prod_map id TypedefName <$> typedefs (text h)).

Definition declared (s : tu) (name : string) : bool :=
  bool_decide (is_Some (idents s !! name)).

(** The first name of the file, in source order, that the unit has already
    declared. *)
Definition first_taken (h : header) (s : tu) : option string :=
  find (declared s) (names h).

(** The unit [s] extended with everything file [h] brings. *)
Definition with_header (h : header) (s : tu) : tu :=
  mkTU ({[ guard h ]} ∪ macros s) ({[ "stdint.h" ]} ∪ sys_headers s)
       (idents s ∪ aliases h).

(** Lines without effect. *)
Definition filler (l : line) : bool :=
  match l with
  | Comment | Blank => true
  | _ => false
  end.

(** Lines that neither open nor close a conditional and define no macro. *)
Definition plain (l : line) : bool :=
  match l with
  | Comment | Blank | Typedef _ _ => true
  | _ => false
  end.

(** ** Running the files *)

Example posix_types_h_line_17 :
  length posix_types_h = 34
  ∧ posix_types_h !! 16 = Some (Typedef uint64_t "__kernel_dev_t").
Proof. split; reflexivity. Qed.

Example types_h_line_23 :
  length types_h = 26
  ∧ types_h !! 22 = Some (Typedef unsigned_long "__kernel_ulong_t").
Proof. split; reflexivity. Qed.

Lemma compile_A : compile [HeaderA] = OK unit_A.
Proof. vm_compute. reflexivity. Qed.

Lemma compile_B : compile [HeaderB] = OK unit_B.
Proof. vm_compute. reflexivity. Qed.

Lemma compile_AB : compile [HeaderA; HeaderB] = OK unit_AB.
Proof. vm_compute. reflexivity. Qed.

Lemma compile_BA : compile [HeaderB; HeaderA] = OK unit_AB.
Proof. vm_compute. reflexivity. Qed.

(** Without its guard a file cannot be included twice: the body of
    [types.h] (lines 12 to 24) redeclares [__u8] the second time. *)
Example unguarded_twice :
  let body := take 13 (drop 11 types_h) in
  bind (include_text body empty_tu) (include_text body) = Err (Redefinition "__u8").
Proof. vm_compute. reflexivity. Qed.

(** A type of [<stdint.h>] cannot be named before the header is included. *)
Example typedef_needs_stdint :
  include_text [Typedef uint8_t "__u8"] empty_tu = Err (UnknownType uint8_t).
Proof. vm_compute. reflexivity. Qed.

Lemma alias_of_unit_of ls g name t :
  NoDup (typedefs ls).*1 →
  alias_of (unit_of ls g) name = Some t ↔ (name, t) ∈ typedefs ls.
Proof.
  intros Hnd. unfold alias_of, unit_of; simpl.
  assert (Hfst : (prod_map id TypedefName <$> typedefs ls).*1 = (typedefs ls).*1).
  { rewrite <- list_fmap_compose. apply list_fmap_ext. by intros _ [n u] _. }
  split.
  - destruct (_ !! name) as [[u|u|u]|] eqn:E; intros [= <-].
    apply elem_of_list_to_map in E; [|by rewrite Hfst].
    apply list_elem_of_fmap in E as ([n' t'] & [= -> ->] & Hin). done.
  - intros Hin.
    assert (E : (list_to_map (prod_map id TypedefName <$> typedefs ls)
                   : gmap string entity) !! name = Some (TypedefName t)).
    { apply elem_of_list_to_map; [by rewrite Hfst|].
      apply list_elem_of_fmap. by exists (name, t). }
    by rewrite E.
Qed.

Lemma typedefs_A_NoDup : NoDup (typedefs posix_types_h).*1.
Proof. apply (bool_decide_unpack _). vm_compute. exact I. Qed.

Lemma typedefs_B_NoDup : NoDup (typedefs types_h).*1.
Proof. apply (bool_decide_unpack _). vm_compute. exact I. Qed.

(** The aliases of each unit are the typedef lines of its file. *)
Lemma alias_of_unit_A name t :
  alias_of unit_A name = Some t ↔ (name, t) ∈ typedefs posix_types_h.
Proof. apply alias_of_unit_of, typedefs_A_NoDup. Qed.

Lemma alias_of_unit_B name t :
  alias_of unit_B name = Some t ↔ (name, t) ∈ typedefs types_h.
Proof. apply alias_of_unit_of, typedefs_B_NoDup. Qed.

(** Case analysis on membership in a literal list of typedef lines. *)
Ltac each_typedef H :=
  cbn in H;
  repeat (apply elem_of_cons in H as [H|H]; [injection H as -> ->|]);
  [..|by apply elem_of_nil in H].

(** ** Widths and signedness of the aliases *)

Lemma bits_stdint dm dm' t : is_stdint t = true → bits dm t = bits dm' t.
Proof. by destruct t. Qed.

Ltac alias_here := eexists; repeat split; vm_compute; reflexivity.

Section Widths.
Variable dm : data_model.

(** C1: after [asm/types.h] is included, for each width N in 8, 16, 32, 64
    there are exactly two fixed-width aliases of N bits: [__uN], unsigned,
    and [__sN], signed; this holds on every host data model. *)
Theorem types_h_fixed_width_aliases :
  ∃ s, compile [HeaderB] = OK s
    ∧ fixed_width_pair dm s 8 "__u8" "__s8"
    ∧ fixed_width_pair dm s 16 "__u16" "__s16"
    ∧ fixed_width_pair dm s 32 "__u32" "__s32"
    ∧ fixed_width_pair dm s 64 "__u64" "__s64".
Proof.
  exists unit_B. split; [exact compile_B|].
  repeat split; try alias_here; try discriminate;
    intros name t H%alias_of_unit_B Hstd Hbits;
    each_typedef H; cbn in Hstd, Hbits; try discriminate; auto.
Qed.

(** C2: after [asm/posix_types.h] is included, [__kernel_dev_t] and
    [__kernel_ino_t] are aliases of an unsigned integer type of exactly 64
    bits, on every host data model. *)
Theorem posix_dev_ino_u64 :
  ∃ s, compile [HeaderA] = OK s
    ∧ resolves_to dm s "__kernel_dev_t" Unsigned 64
    ∧ resolves_to dm s "__kernel_ino_t" Unsigned 64.
Proof. exists unit_A. split; [exact compile_A|]. split; alias_here. Qed.

(** C3: after [asm/posix_types.h] is included, [__kernel_mode_t],
    [__kernel_nlink_t], [__kernel_uid_t] and [__kernel_gid_t] are aliases
    of an unsigned integer type of exactly 32 bits. *)
Theorem posix_mode_nlink_uid_gid_u32 :
  ∃ s, compile [HeaderA] = OK s
    ∧ resolves_to dm s "__kernel_mode_t" Unsigned 32
    ∧ resolves_to dm s "__kernel_nlink_t" Unsigned 32
    ∧ resolves_to dm s "__kernel_uid_t" Unsigned 32
    ∧ resolves_to dm s "__kernel_gid_t" Unsigned 32.
Proof. exists unit_A. split; [exact compile_A|]. repeat split; alias_here. Qed.

(** C4: after [asm/posix_types.h] is included, [__kernel_off_t] is an alias
    of a signed 64-bit integer type, and [__kernel_pid_t] and
    [__kernel_daddr_t] are aliases of a signed 32-bit integer type. *)
Theorem posix_off_pid_daddr_signed :
  ∃ s, compile [HeaderA] = OK s
    ∧ resolves_to dm s "__kernel_off_t" Signed 64
    ∧ resolves_to dm s "__kernel_pid_t" Signed 32
    ∧ resolves_to dm s "__kernel_daddr_t" Signed 32.
Proof. exists unit_A. split; [exact compile_A|]. repeat split; alias_here. Qed.

End Widths.

(** C5: [asm/types.h] declares exactly one unsigned platform-width alias,
    [__kernel_ulong_t] for [unsigned long], and exactly one signed one,
    [__kernel_long_t] for [long]; on an LP64 host both have exactly 64 bits,
    which is the width of a pointer there. *)
Theorem types_h_platform_width_aliases :
  ∃ s, compile [HeaderB] = OK s
    ∧ alias_of s "__kernel_ulong_t" = Some unsigned_long
    ∧ alias_of s "__kernel_long_t" = Some long
    ∧ (∀ name t, alias_of s name = Some t → is_stdint t = false →
         match signedness_of t with
         | Unsigned => name = "__kernel_ulong_t" ∧ t = unsigned_long
         | Signed => name = "__kernel_long_t" ∧ t = long
         end)
    ∧ resolves_to LP64 s "__kernel_ulong_t" Unsigned (pointer_bits LP64)
    ∧ resolves_to LP64 s "__kernel_long_t" Signed (pointer_bits LP64)
    ∧ pointer_bits LP64 = 64%Z.
Proof.
  exists unit_B. split; [exact compile_B|].
  repeat split; try alias_here.
  intros name t H%alias_of_unit_B Hstd.
  each_typedef H; cbn in Hstd; try discriminate; cbn; auto.
Qed.

(** ** The inclusion guard *)

Lemma cpp_app ls1 ls2 stk s :
  cpp (ls1 ++ ls2) stk s = bind (cpp ls1 stk s) (λ '(stk', s'), cpp ls2 stk' s').
Proof.
  revert stk s. induction ls1 as [|l ls1 IH]; intros stk s; simpl.
  - reflexivity.
  - destruct (cpp_line l stk s) as [[stk' s']|e]; simpl; [apply IH|reflexivity].
Qed.

Lemma declare_macros name e t s s' :
  declare name e t s = OK s' → macros s' = macros s.
Proof.
  unfold declare. destruct (known s t); [|discriminate].
  destruct (idents s !! name); [discriminate|]. by intros [= <-].
Qed.

(** No line removes a macro: the files have no [#undef]. *)
Lemma cpp_line_macros l stk s stk' s' :
  cpp_line l stk s = OK (stk', s') → macros s ⊆ macros s'.
Proof.
  destruct l; simpl; try (intros [= <- <-]; done).
  - destruct (active stk); intros [= <- <-]; simpl; set_solver.
  - destruct stk; [discriminate|]. by intros [= <- <-].
  - destruct (active stk); intros [= <- <-]; simpl; set_solver.
  - destruct (active stk); [|by intros [= <- <-]].
    destruct (declare _ _ _ _) eqn:E; simpl; intros [= <- <-].
    by rewrite (declare_macros _ _ _ _ _ E).
  - destruct (active stk); [|by intros [= <- <-]].
    destruct (declare _ _ _ _) eqn:E; simpl; intros [= <- <-].
    by rewrite (declare_macros _ _ _ _ _ E).
  - destruct (active stk); [|by intros [= <- <-]].
    destruct (declare _ _ _ _) eqn:E; simpl; intros [= <- <-].
    by rewrite (declare_macros _ _ _ _ _ E).
Qed.

Lemma cpp_macros ls stk s stk' s' :
  cpp ls stk s = OK (stk', s') → macros s ⊆ macros s'.
Proof.
  revert stk s. induction ls as [|l ls IH]; intros stk s; simpl.
  - by intros [= <- <-].
  - destruct (cpp_line l stk s) as [[stk1 s1]|e] eqn:E; simpl; [|discriminate].
    intros H. apply cpp_line_macros in E. apply IH in H. set_solver.
Qed.

(** With its guard macro already defined, a file is skipped as a whole. *)
Lemma include_guarded h s : guard h ∈ macros s → include h s = OK s.
Proof.
  intros Hin. unfold include, include_text.
  destruct h; cbn -[bool_decide];
    rewrite (bool_decide_eq_false_2 _) by (intros Hn; by apply Hn);
    reflexivity.
Qed.

(** A successful inclusion leaves the guard macro defined. *)
Lemma include_defines_guard h s s' : include h s = OK s' → guard h ∈ macros s'.
Proof.
  intros H. destruct (decide (guard h ∈ macros s)) as [Hin|Hout].
  { rewrite include_guarded in H by done. by injection H as <-. }
  unfold include, include_text in H.
  destruct (cpp (text h) [] s) as [[[|b stk'] s1]|e] eqn:E; [|discriminate..].
  injection H as ->.
  assert (∃ pre rest, text h = (pre ++ Define (guard h) :: rest)%list
            ∧ cpp pre [] s = OK ([true], s)) as (pre & rest & Htext & Hpre).
  { destruct h.
    - exists (take 11 posix_types_h), (drop 12 posix_types_h).
      split; [reflexivity|]. cbn -[bool_decide].
      by rewrite (bool_decide_eq_true_2 _) by done.
    - exists (take 9 types_h), (drop 10 types_h).
      split; [reflexivity|]. cbn -[bool_decide].
      by rewrite (bool_decide_eq_true_2 _) by done. }
  rewrite Htext, cpp_app, Hpre in E. cbn [bind cpp cpp_line active forallb andb] in E.
  apply cpp_macros in E. cbn [macros] in E. set_solver.
Qed.

(** C6: once a header has been included successfully, including it again,
    any number of times, succeeds and leaves the translation unit exactly as
    the first inclusion left it. *)
Theorem include_idempotent (h : header) (s s' : tu) (n : nat) :
  include h s = OK s' →
  include_all (replicate (S n) h) s = OK s'.
Proof.
  intros H. cbn [replicate include_all]. rewrite H. cbn [bind].
  apply include_defines_guard in H.
  induction n as [|n IH]; cbn [replicate include_all]; [reflexivity|].
  by rewrite include_guarded.
Qed.

Lemma include_idempotent_witness :
  include HeaderA empty_tu = OK unit_A
  ∧ include_all [HeaderA; HeaderA; HeaderA] empty_tu = OK unit_A.
Proof.
  split; [vm_compute; reflexivity|].
  apply (include_idempotent HeaderA empty_tu unit_A 2).
  vm_compute; reflexivity.
Defined.

(** ** The two files together *)

(** C7: the names defined by [asm/posix_types.h] and by [asm/types.h]
    (typedef names and guard macros) are disjoint, and a unit that includes
    both, in either order, compiles to the union of the two. *)
Theorem headers_disjoint :
  ∃ sA sB sAB,
    compile [HeaderA] = OK sA ∧ compile [HeaderB] = OK sB
    ∧ defined_names sA ## defined_names sB
    ∧ compile [HeaderA; HeaderB] = OK sAB
    ∧ compile [HeaderB; HeaderA] = OK sAB
    ∧ idents sAB = idents sA ∪ idents sB
    ∧ macros sAB = macros sA ∪ macros sB.
Proof.
  exists unit_A, unit_B, unit_AB.
  split; [exact compile_A|]. split; [exact compile_B|].
  split; [apply (bool_decide_unpack _); vm_compute; exact I|].
  split; [exact compile_AB|]. split; [exact compile_BA|].
  split; reflexivity.
Qed.

(** ** Nothing but typedefs and the guard *)

Lemma idents_unit_of ls g name e :
  idents (unit_of ls g) !! name = Some e → is_typedef_name e = true.
Proof.
  unfold unit_of; simpl. intros H%elem_of_list_to_map_2.
  by apply list_elem_of_fmap in H as ([n t] & [= -> ->] & _).
Qed.

(** C8: every line of either file is a comment, a blank line, part of the
    inclusion guard, the [<stdint.h>] inclusion or a typedef of a documented
    name; a unit made of one file alone defines the guard macro and no other,
    declares the documented names and no other, and each of them is a typedef
    name (no object, no function). *)
Theorem only_documented_typedefs (h : header) :
  forallb (allowed_line h) (text h) = true
  ∧ ∃ s, compile [h] = OK s
      ∧ macros s = {[ guard h ]}
      ∧ sys_headers s = {[ "stdint.h" ]}
      ∧ dom (idents s) = list_to_set (documented h)
      ∧ map_Forall (λ _ e, is_typedef_name e = true) (idents s).
Proof.
  split; [by destruct h; vm_compute|].
  destruct h.
  - exists unit_A. split; [exact compile_A|].
    repeat split; try (vm_compute; reflexivity).
    intros name e H. by eapply idents_unit_of.
  - exists unit_B. split; [exact compile_B|].
    repeat split; try (vm_compute; reflexivity).
    intros name e H. by eapply idents_unit_of.
Qed.

(** ** Interleaved inclusions *)

Lemma seen_cons h h' hs : seen h (h' :: hs) = bool_decide (h = h') || seen h hs.
Proof.
  unfold seen. rewrite <- bool_decide_or. apply bool_decide_ext, elem_of_cons.
Qed.

Lemma include_reached h a b :
  include h (reached a b)
  = OK (reached (a || bool_decide (HeaderA = h)) (b || bool_decide (HeaderB = h))).
Proof. destruct h, a, b; vm_compute; reflexivity. Qed.

Lemma include_all_reached hs a b :
  include_all hs (reached a b)
  = OK (reached (a || seen HeaderA hs) (b || seen HeaderB hs)).
Proof.
  revert a b. induction hs as [|h hs IH]; intros a b; cbn [include_all].
  - by rewrite !orb_false_r.
  - rewrite include_reached. cbn [bind].
    by rewrite IH, !seen_cons, !orb_assoc.
Qed.

(** C9: the guard macros of the two files differ, and a unit that includes
    both files, in any order and any number of times each, compiles and has
    all nineteen documented alias names declared as typedef names. *)
Theorem interleaved_inclusions (hs : list header) :
  HeaderA ∈ hs → HeaderB ∈ hs →
  guard HeaderA ≠ guard HeaderB
  ∧ length (documented HeaderA ++ documented HeaderB) = 19
  ∧ NoDup (documented HeaderA ++ documented HeaderB)
  ∧ ∃ s, compile hs = OK s
      ∧ Forall (λ name, is_Some (alias_of s name))
               (documented HeaderA ++ documented HeaderB).
Proof.
  intros HA HB.
  split; [discriminate|]. split; [reflexivity|].
  split; [apply (bool_decide_unpack _); vm_compute; exact I|].
  exists unit_AB. split.
  - unfold compile. change empty_tu with (reached false false).
    rewrite include_all_reached. unfold seen.
    by rewrite !bool_decide_eq_true_2.
  - repeat constructor; vm_compute; eauto.
Qed.

Lemma interleaved_inclusions_witness :
  guard HeaderA ≠ guard HeaderB
  ∧ length (documented HeaderA ++ documented HeaderB) = 19
  ∧ NoDup (documented HeaderA ++ documented HeaderB)
  ∧ ∃ s, compile [HeaderB; HeaderA; HeaderB; HeaderA] = OK s
      ∧ Forall (λ name, is_Some (alias_of s name))
               (documented HeaderA ++ documented HeaderB).
Proof.
  apply (interleaved_inclusions [HeaderB; HeaderA; HeaderB; HeaderA]);
    apply (bool_decide_unpack _); vm_compute; exact I.
Defined.

(** ** Header A is host independent *)

(** C10: every alias of [asm/posix_types.h] names one of the exact-width
    [<stdint.h>] types [uint32_t], [uint64_t], [int32_t], [int64_t], never a
    host-dependent one, so its width is the same on every host; and any other
    alias of the file that agrees with it in width and signedness names the
    same type. *)
Theorem posix_aliases_exact (dm : data_model) (s : tu) (n1 : string) (t1 : ctype) :
  compile [HeaderA] = OK s →
  alias_of s n1 = Some t1 →
  t1 ∈ [uint32_t; uint64_t; int32_t; int64_t]
  ∧ is_stdint t1 = true
  ∧ (∀ dm', bits dm' t1 = bits dm t1)
  ∧ (∀ n2 t2, alias_of s n2 = Some t2 →
       bits dm t1 = bits dm t2 → signedness_of t1 = signedness_of t2 → t1 = t2).
Proof.
  rewrite compile_A. intros [= <-] H1%alias_of_unit_A.
  each_typedef H1;
    (split; [set_solver|]); (split; [reflexivity|]); (split; [done|]);
    intros n2 t2 H2%alias_of_unit_A Hb Hs;
    each_typedef H2; cbn in Hb, Hs; done.
Qed.

Lemma posix_aliases_exact_witness :
  uint32_t ∈ [uint32_t; uint64_t; int32_t; int64_t]
  ∧ is_stdint uint32_t = true
  ∧ (∀ dm', bits dm' uint32_t = bits LP64 uint32_t)
  ∧ (∀ n2 t2, alias_of unit_A n2 = Some t2 →
       bits LP64 uint32_t = bits LP64 t2 →
       signedness_of uint32_t = signedness_of t2 → uint32_t = t2).
Proof.
  apply (posix_aliases_exact LP64 unit_A "__kernel_uid_t" uint32_t);
    vm_compute; reflexivity.
Defined.

(** Header B differs: on an LP64 host [__u64] and [__kernel_ulong_t] agree in
    width and signedness and still name different types. *)
Example types_h_not_exact :
  alias_of unit_B "__u64" = Some uint64_t
  ∧ alias_of unit_B "__kernel_ulong_t" = Some unsigned_long
  ∧ bits LP64 uint64_t = bits LP64 unsigned_long
  ∧ signedness_of uint64_t = signedness_of unsigned_long
  ∧ uint64_t ≠ unsigned_long.
Proof. repeat split; try (vm_compute; reflexivity). discriminate. Qed.

(** ** Inclusion into an arbitrary unit *)

Lemma tu_eta s : mkTU (macros s) (sys_headers s) (idents s) = s.
Proof. by destruct s. Qed.

Lemma known_stdint s t : "stdint.h" ∈ sys_headers s → known s t = true.
Proof.
  intros H. unfold known. destruct (is_stdint t); [|done].
  by apply bool_decide_eq_true_2.
Qed.

Lemma find_ext_in {A} (f g : A → bool) (l : list A) :
  (∀ x, x ∈ l → f x = g x) → find f l = find g l.
Proof.
  induction l as [|x l IH]; intros H; simpl; [done|].
  rewrite <- (H x) by left. destruct (f x); [done|].
  apply IH. intros y Hy. apply H. by right.
Qed.



(** A run of typedefs in a live group, with [<stdint.h>] visible: it stops at
    the first name that is taken, and otherwise declares them all. *)
Lemma cpp_plain body stk s :
  forallb plain body = true →
  NoDup (typedefs body).*1 →
  active stk = true →
  "stdint.h" ∈ sys_headers s →
  cpp body stk s =
    match find (declared s) (typedefs body).*1 with
    | Some n => Err (Redefinition n)
    | None =>
        OK (stk, mkTU (macros s) (sys_headers s)
                      (idents s ∪ list_to_map (prod_map id TypedefName <$> typedefs body)))
    end.
Proof.
  intros Hplain Hnd Hact. revert s Hplain Hnd.
  induction body as [|l body IH]; intros s Hplain Hnd Hstd.
  - cbn. by rewrite (right_id_L ∅ (∪)), tu_eta.
  - apply andb_prop in Hplain as [Hl Hplain].
    destruct l as [| | | | | |t n| |]; try discriminate Hl.
    + cbn [cpp cpp_line bind]. by apply IH.
    + cbn [cpp cpp_line bind]. by apply IH.
    + change (typedefs (Typedef t n :: body)) with ((n, t) :: typedefs body) in *.
      cbn [fmap list_fmap fst] in *. apply NoDup_cons in Hnd as [Hn Hnd].
      cbn [cpp cpp_line find]. rewrite Hact. unfold declare, declared at 1.
      rewrite known_stdint by done.
      destruct (idents s !! n) as [e|] eqn:Hlook.
      { rewrite bool_decide_eq_true_2 by eauto. reflexivity. }
      rewrite bool_decide_eq_false_2 by (by intros [? ?]).
      cbn [bind]. rewrite IH by done. cbn [macros sys_headers idents].
      rewrite (find_ext_in (declared _) (declared s)); last first.
      { intros x Hx. unfold declared; cbn [idents].
        rewrite lookup_insert_ne; [done|]. by intros ->. }
      destruct (find _ _); [done|]. do 3 f_equal.
      cbn [fmap list_fmap prod_map list_to_map id fst snd].
      by rewrite list_to_map_cons, <- insert_union_l, <- insert_union_r.
Qed.

(** Each file is a preamble of comments, the guard's [#ifndef] and
    [#define], the [<stdint.h>] inclusion, a run of typedefs, and [#endif]. *)
Lemma text_shape h :
  ∃ pre body post,
    text h = (pre ++ [Ifndef (guard h); Define (guard h); Blank; Include "stdint.h"]
                  ++ body ++ Endif :: post)%list
    ∧ forallb filler pre = true
    ∧ forallb filler post = true
    ∧ forallb plain body = true
    ∧ typedefs body = typedefs (text h).
Proof.
  destruct h.
  - exists (take 10 posix_types_h), (take 18 (drop 14 posix_types_h)),
      (drop 33 posix_types_h). by vm_compute.
  - exists (take 8 types_h), (take 13 (drop 12 types_h)), (drop 26 types_h).
    by vm_compute.
Qed.

Lemma cpp_blank ls stk s :
  forallb filler ls = true →
  cpp ls stk s = OK (stk, s).
Proof.
  induction ls as [|l ls IH]; [done|].
  intros [Hl Hls]%andb_prop.
  destruct l; try discriminate Hl; cbn [cpp cpp_line bind]; by apply IH.
Qed.

Lemma names_NoDup h : NoDup (names h).
Proof. destruct h; [apply typedefs_A_NoDup|apply typedefs_B_NoDup]. Qed.

(** What an inclusion does to any unit: nothing when the guard macro is
    defined; otherwise it fails at the first name that is taken, or adds the
    guard, [<stdint.h>] and all the typedefs. *)
Lemma include_spec h s :
  include h s =
    if bool_decide (guard h ∈ macros s) then OK s
    else match first_taken h s with
         | Some n => Err (Redefinition n)
         | None => OK (with_header h s)
         end.
Proof.
  case_bool_decide as Hg; [by apply include_guarded|].
  destruct (text_shape h) as (pre & body & post & Htext & Hpre & Hpost & Hbody & Htd).
  unfold include, include_text, first_taken, with_header, names, aliases.
  rewrite <- Htd, Htext, cpp_app, (cpp_blank pre) by done. cbn [bind].
  rewrite cpp_app. cbn [cpp cpp_line bind active forallb andb].
  rewrite (bool_decide_eq_true_2 _) by done.
  cbn [cpp cpp_line bind active forallb andb macros sys_headers idents].
  rewrite cpp_app, (cpp_plain body); [|done| |done|cbn; set_solver].
  2:{ rewrite Htd. apply names_NoDup. }
  change (declared (mkTU _ _ (idents s))) with (declared s).
  destruct (find _ _); [done|]. cbn [bind cpp cpp_line].
  by rewrite (cpp_blank post).
Qed.





Lemma include_ok_cases h s s' :
  include h s = OK s' →
  (guard h ∈ macros s ∧ s' = s)
  ∨ ((guard h ∉ macros s) ∧ first_taken h s = None ∧ s' = with_header h s).
Proof.
  rewrite include_spec. case_bool_decide as Hg.
  - intros [= <-]. by left.
  - destruct (first_taken h s); [discriminate|]. intros [= <-]. by right.
Qed.









Lemma include_all_macros hs s s' :
  include_all hs s = OK s' →
  macros s ⊆ macros s' ∧ ∀ h, h ∈ hs → guard h ∈ macros s'.
Proof.
  revert s. induction hs as [|h hs IH]; intros s; cbn [include_all].
  - intros [= <-]. split; [done|]. by intros h Hh%elem_of_nil.
  - destruct (include h s) as [s1|e] eqn:E; [|discriminate]. cbn [bind].
    intros [Hsub Hall]%IH. pose proof (include_defines_guard _ _ _ E) as Hg.
    assert (macros s ⊆ macros s1) as Hs1.
    { apply include_ok_cases in E as [[_ ->]|(_ & _ & ->)]; [done|].
      apply union_subseteq_r. }
    split; [by trans (macros s1)|].
    intros h' [->|Hh']%elem_of_cons; [by eapply elem_of_weaken|by apply Hall].
Qed.

Lemma include_all_guarded hs s :
  (∀ h, h ∈ hs → guard h ∈ macros s) → include_all hs s = OK s.
Proof.
  induction hs as [|h hs IH]; intros Hall; cbn [include_all]; [done|].
  rewrite include_guarded by (apply Hall; left). cbn [bind].
  apply IH. intros h' Hh'. apply Hall. by right.
Qed.


Lemma include_all_app hs1 hs2 s :
  include_all (hs1 ++ hs2) s = bind (include_all hs1 s) (include_all hs2).
Proof.
  revert s. induction hs1 as [|h hs1 IH]; intros s; cbn [app include_all bind].
  - reflexivity.
  - destruct (include h s); cbn [bind]; [apply IH|reflexivity].
Qed.












(** X6: after a run of inclusions has succeeded, including any of those
    files again, in any order and any number of times, succeeds and changes
    nothing. *)
Theorem include_all_again (hs hs' : list header) (s s' : tu) :
  include_all hs s = OK s' →
  (∀ h, h ∈ hs' → h ∈ hs) →
  include_all hs' s' = OK s' ∧ include_all (hs ++ hs') s = OK s'.
Proof.
  intros H Hsub. pose proof (include_all_macros _ _ _ H) as [_ Hall].
  assert (include_all hs' s' = OK s') as Hagain.
  { apply include_all_guarded. intros h Hh. by apply Hall, Hsub. }
  split; [done|]. by rewrite include_all_app, H.
Qed.

Lemma include_all_again_witness :
  include_all [HeaderB; HeaderB; HeaderA] unit_AB = OK unit_AB
  ∧ include_all ([HeaderA; HeaderB] ++ [HeaderB; HeaderB; HeaderA]) empty_tu
    = OK unit_AB.
Proof.
  apply (include_all_again [HeaderA; HeaderB] [HeaderB; HeaderB; HeaderA]
           empty_tu unit_AB).
  - vm_compute. reflexivity.
  - apply Forall_forall. apply (bool_decide_unpack _). vm_compute. exact I.
Defined.

(** X7: a unit that defines a file's guard macro by itself gets nothing
    from the file, however often it includes it: every inclusion succeeds
    and leaves the unit as it is, so none of the aliases becomes declared. *)
Theorem predefined_guard_disables (h : header) (s : tu) (k : nat) :
  guard h ∈ macros s →
  include_all (replicate k h) s = OK s.
Proof.
  intros Hg. apply include_all_guarded. by intros h' [-> _]%elem_of_replicate.
Qed.

Lemma predefined_guard_disables_witness :
  include_all (replicate 2 HeaderB) (mkTU {[ "_ASM_TYPES_H" ]} ∅ ∅)
  = OK (mkTU {[ "_ASM_TYPES_H" ]} ∅ ∅)
  ∧ alias_of (mkTU {[ "_ASM_TYPES_H" ]} ∅ ∅) "__u32" = None.
Proof.
  split; [|vm_compute; reflexivity].
  apply (predefined_guard_disables HeaderB (mkTU {[ "_ASM_TYPES_H" ]} ∅ ∅) 2).
  apply (bool_decide_unpack _). vm_compute. exact I.
Defined.



(** X9: of all the aliases the two files declare, the ones whose width
    changes with the host data model are exactly [__kernel_ulong_t] and
    [__kernel_long_t]. *)
Theorem host_dependent_aliases (h : header) (s : tu) (name : string) (t : ctype) :
  compile [h] = OK s →
  alias_of s name = Some t →
  (∃ dm dm', bits dm t ≠ bits dm' t)
  ↔ name ∈ ["__kernel_ulong_t"; "__kernel_long_t"].
Proof.
  destruct h.
  - rewrite compile_A. intros [= <-] H%alias_of_unit_A.
    each_typedef H; (split; [by intros (dm & dm' & Hd)|]);
      intros Hin; exfalso; revert Hin; apply (bool_decide_eq_false_1 _);
      vm_compute; reflexivity.
  - rewrite compile_B. intros [= <-] H%alias_of_unit_B.
    each_typedef H;
      try (split; [by intros (dm & dm' & Hd)|];
           intros Hin; exfalso; revert Hin; apply (bool_decide_eq_false_1 _);
           vm_compute; reflexivity).
    + split; [intros _; left|intros _; by exists ILP32, LP64].
    + split; [intros _; right; left|intros _; by exists ILP32, LP64].
Qed.

Lemma host_dependent_aliases_witness :
  (∃ dm dm', bits dm long ≠ bits dm' long)
  ↔ "__kernel_long_t" ∈ ["__kernel_ulong_t"; "__kernel_long_t"].
Proof.
  apply (host_dependent_aliases HeaderB unit_B "__kernel_long_t" long);
    vm_compute; reflexivity.
Defined.




